(** * Relay list lookup (package [net.mullvad.mullvadvpn.relaylist])

    A shallow embedding of the Kotlin class [RelayList]: its constructor,
    which builds the country / city / relay tree from the daemon's model, and
    [findItemForLocation], which resolves a location constraint to a node of
    that tree.  Kotlin's [String] is [string], [List<T>] is [list T], a
    nullable [T?] is [option T], and [==] on strings is [String.eqb].

    The class [WelcomeViewModel] of the same sources is embedded by the
    coroutines its member functions launch and the calls these make. *)

From Stdlib Require Import List String Bool.
Import ListNotations.
Open Scope string_scope.
Open Scope list_scope.

Set Implicit Arguments.

(** ** Kotlin standard-library operations used by the class *)

Module Kotlin.

(** [Iterable<T>.find(predicate)]: the first element, in iteration order,
    on which the predicate holds, or [null]. *)
Fixpoint find {T : Type} (predicate : T -> bool) (l : list T) : option T :=
  match l with
  | [] => None
  | element :: rest =>
      if predicate element then Some element else find predicate rest
  end.

(** The safe-call operator on a property, [receiver?.property]. *)
Definition safe_get {A B : Type} (receiver : option A) (property : A -> B)
  : option B :=
  match receiver with
  | Some a => Some (property a)
  | None => None
  end.

(** The safe-call operator on a method with a nullable result,
    [receiver?.method(...)]. *)
Definition safe_call {A B : Type} (receiver : option A)
    (method : A -> option B) : option B :=
  match receiver with
  | Some a => method a
  | None => None
  end.

End Kotlin.

(** ** The input model (package [net.mullvad.mullvadvpn.model]) *)

Module model.

Module Relay.
(** Modelled from the spec: the declaration of the model's relay class is
    not part of the sources; the constructor reads its [hostname]. *)
Record Relay := mk { hostname : string }.
End Relay.

Module RelayListCity.
(** Modelled from the spec: the declaration of the model's city class is
    not part of the sources; the constructor reads [name], [code] and
    [relays]. *)
Record RelayListCity := mk {
  name : string;
  code : string;
  relays : list Relay.Relay
}.
End RelayListCity.

Module RelayListCountry.
(** Modelled from the spec: the declaration of the model's country class
    is not part of the sources; the constructor reads [name], [code] and
    [cities]. *)
Record RelayListCountry := mk {
  name : string;
  code : string;
  cities : list RelayListCity.RelayListCity
}.
End RelayListCountry.

Module RelayList.
(** Modelled from the spec: the declaration of the model's relay list is
    not part of the sources; the constructor reads [countries]. *)
Record RelayList := mk { countries : list RelayListCountry.RelayListCountry }.
End RelayList.

(** Modelled from the spec: the sealed class [LocationConstraint], whose
    declaration is not part of the sources; [findItemForLocation] reads
    [countryCode], [cityCode] and [hostname] of its three variants. *)
Inductive LocationConstraint : Type :=
| Country (countryCode : string)
| City (countryCode cityCode : string)
| Hostname (countryCode cityCode hostname : string).

(** Modelled from the spec: the sealed class [Constraint<T>], whose
    declaration is not part of the sources; [Only] carries [value]. *)
Inductive Constraint (T : Type) : Type :=
| Any
| Only (value : T).

Arguments Any {T}.
Arguments Only {T} value.

End model.

(** ** The tree owned by the relay list *)

Module Relay.
(** Modelled from the spec: the class [Relay], whose declaration is not
    part of the sources.  The constructor calls
    [Relay(country.code, city.code, relay.hostname)] and the lookup reads
    [name]. *)
Record Relay := mk {
  countryCode : string;
  cityCode : string;
  name : string
}.
End Relay.

Module RelayCity.
(** Modelled from the spec: the class [RelayCity], whose declaration is not
    part of the sources.  The constructor calls
    [RelayCity(city.name, country.code, city.code, false, relays)] and the
    lookup reads [code] and [relays]; the fourth field is the
    visibility/expansion flag. *)
Record RelayCity := mk {
  name : string;
  countryCode : string;
  code : string;
  expanded : bool;
  relays : list Relay.Relay
}.
End RelayCity.

Module RelayCountry.
(** Modelled from the spec: the class [RelayCountry], whose declaration is
    not part of the sources.  The constructor calls
    [RelayCountry(country.name, country.code, false, cities)] and the
    lookup reads [code] and [cities]; the third field is the
    visibility/expansion flag. *)
Record RelayCountry := mk {
  name : string;
  code : string;
  expanded : bool;
  cities : list RelayCity.RelayCity
}.
End RelayCountry.

(** Modelled from the spec: the interface [RelayItem], whose declaration is
    not part of the sources; it is implemented by the three node classes, so
    a [RelayItem] is one of them. *)
Inductive RelayItem : Type :=
| ItemCountry (country : RelayCountry.RelayCountry)
| ItemCity (city : RelayCity.RelayCity)
| ItemRelay (relay : Relay.Relay).

(** ** The class [RelayList] *)

Module RelayList.

Record RelayList := mk { countries : list RelayCountry.RelayCountry }.

(** [constructor(model: net.mullvad.mullvadvpn.model.RelayList)] *)
Definition constructor (model : model.RelayList.RelayList) : RelayList :=
  mk
    (map
       (fun country =>
          let cities :=
            map
              (fun city =>
                 let relays :=
                   map
                     (fun relay =>
                        Relay.mk
                          (model.RelayListCountry.code country)
                          (model.RelayListCity.code city)
                          (model.Relay.hostname relay))
                     (model.RelayListCity.relays city) in
                 RelayCity.mk
                   (model.RelayListCity.name city)
                   (model.RelayListCountry.code country)
                   (model.RelayListCity.code city)
                   false
                   relays)
              (model.RelayListCountry.cities country) in
          RelayCountry.mk
            (model.RelayListCountry.name country)
            (model.RelayListCountry.code country)
            false
            cities)
       (model.RelayList.countries model)).

(** [fun findItemForLocation(constraint: Constraint<LocationConstraint>): RelayItem?] *)
Definition findItemForLocation (this : RelayList)
    (constraint : model.Constraint model.LocationConstraint) : option RelayItem :=
  match constraint with
  | model.Any => None
  | model.Only location =>
      match location with
      | model.Country countryCode =>
          option_map ItemCountry
            (Kotlin.find
               (fun country => RelayCountry.code country =? countryCode)
               (countries this))
      | model.City countryCode cityCode =>
          let country :=
            Kotlin.find
              (fun country => RelayCountry.code country =? countryCode)
              (countries this) in
          option_map ItemCity
            (Kotlin.safe_call
               (Kotlin.safe_get country RelayCountry.cities)
               (Kotlin.find (fun city => RelayCity.code city =? cityCode)))
      | model.Hostname countryCode cityCode hostname =>
          let country :=
            Kotlin.find
              (fun country => RelayCountry.code country =? countryCode)
              (countries this) in
          let city :=
            Kotlin.safe_call
              (Kotlin.safe_get country RelayCountry.cities)
              (Kotlin.find (fun city => RelayCity.code city =? cityCode)) in
          option_map ItemRelay
            (Kotlin.safe_call
               (Kotlin.safe_get city RelayCity.relays)
               (Kotlin.find (fun relay => Relay.name relay =? hostname)))
      end
  end.

End RelayList.

(** ** What the specification says about a scan *)

Section Scan.

Variable T : Type.
Variable key : T -> string.

(** [first_match wanted l x]: scanning [l] from the left, [x] is the first
    element whose key is exactly [wanted]. *)
Definition first_match (wanted : string) (l : list T) (x : T) : Prop :=
  exists before after,
    l = before ++ x :: after /\
    key x = wanted /\
    forall y, In y before -> key y <> wanted.

(** [no_match wanted l]: no element of [l] has the key [wanted]. *)
Definition no_match (wanted : string) (l : list T) : Prop :=
  forall y, In y l -> key y <> wanted.

(** The scan as the code writes it: [l.find { x -> x.key == wanted }]. *)
Definition find_by_key (wanted : string) (l : list T) : option T :=
  Kotlin.find (fun x => key x =? wanted) l.

End Scan.

(** ** Vocabulary of the properties *)

(** Ownership in the tree: [country] is a top-level node of the list, [city]
    one of its children and [relay] one of that city's children. *)
Definition owns_relay (this : RelayList.RelayList)
    (country : RelayCountry.RelayCountry) (city : RelayCity.RelayCity)
    (relay : Relay.Relay) : Prop :=
  In country (RelayList.countries this) /\
  In city (RelayCountry.cities country) /\
  In relay (RelayCity.relays city).

Definition relay_present (this : RelayList.RelayList) (relay : Relay.Relay)
  : Prop :=
  exists country city, owns_relay this country city relay.

(** Codes are unique within their sibling list: no two countries of the model
    share a code, and no two cities of one country do. *)
Definition unique_codes (m : model.RelayList.RelayList) : Prop :=
  NoDup (map model.RelayListCountry.code (model.RelayList.countries m)) /\
  forall country, In country (model.RelayList.countries m) ->
    NoDup (map model.RelayListCity.code (model.RelayListCountry.cities country)).

(** The lookup returned some node. *)
Definition returns_node (result : option RelayItem) : Prop :=
  exists item, result = Some item.

(** [identifies location item]: [item] is a node of the level that [location]
    names, and its identifying field is the one asked for. *)
Definition identifies (location : model.LocationConstraint) (item : RelayItem)
  : Prop :=
  match location, item with
  | model.Country countryCode, ItemCountry country =>
      RelayCountry.code country = countryCode
  | model.City _ cityCode, ItemCity city =>
      RelayCity.code city = cityCode
  | model.Hostname _ _ hostname, ItemRelay relay =>
      Relay.name relay = hostname
  | _, _ => False
  end.

(** [shallower_prefix a b]: [a] names a level above [b] with the same leading
    codes. *)
Inductive shallower_prefix
  : model.LocationConstraint -> model.LocationConstraint -> Prop :=
| prefix_country_city countryCode cityCode :
    shallower_prefix (model.Country countryCode)
                     (model.City countryCode cityCode)
| prefix_city_hostname countryCode cityCode hostname :
    shallower_prefix (model.City countryCode cityCode)
                     (model.Hostname countryCode cityCode hostname)
| prefix_country_hostname countryCode cityCode hostname :
    shallower_prefix (model.Country countryCode)
                     (model.Hostname countryCode cityCode hostname).

(** Reading the tree back as a model: every node keeps its position and the
    fields that came from the input. *)
Definition relay_to_model (relay : Relay.Relay) : model.Relay.Relay :=
  model.Relay.mk (Relay.name relay).

Definition city_to_model (city : RelayCity.RelayCity)
  : model.RelayListCity.RelayListCity :=
  model.RelayListCity.mk (RelayCity.name city) (RelayCity.code city)
    (map relay_to_model (RelayCity.relays city)).

Definition country_to_model (country : RelayCountry.RelayCountry)
  : model.RelayListCountry.RelayListCountry :=
  model.RelayListCountry.mk (RelayCountry.name country)
    (RelayCountry.code country)
    (map city_to_model (RelayCountry.cities country)).

Definition to_model (this : RelayList.RelayList) : model.RelayList.RelayList :=
  model.RelayList.mk (map country_to_model (RelayList.countries this)).

(** The three nested maps of the constructor, one node at a time. *)
Definition relay_of (country : model.RelayListCountry.RelayListCountry)
    (city : model.RelayListCity.RelayListCity) (relay : model.Relay.Relay)
  : Relay.Relay :=
  Relay.mk (model.RelayListCountry.code country)
    (model.RelayListCity.code city) (model.Relay.hostname relay).

Definition city_of (country : model.RelayListCountry.RelayListCountry)
    (city : model.RelayListCity.RelayListCity) : RelayCity.RelayCity :=
  RelayCity.mk (model.RelayListCity.name city)
    (model.RelayListCountry.code country) (model.RelayListCity.code city)
    false (map (relay_of country city) (model.RelayListCity.relays city)).

Definition country_of (country : model.RelayListCountry.RelayListCountry)
  : RelayCountry.RelayCountry :=
  RelayCountry.mk (model.RelayListCountry.name country)
    (model.RelayListCountry.code country) false
    (map (city_of country) (model.RelayListCountry.cities country)).

(** ** Sample data *)

Module Sample.

(** Sweden, with Stockholm and Gothenburg. *)
Definition stockholm : model.RelayListCity.RelayListCity :=
  model.RelayListCity.mk "Stockholm" "sto"
    [model.Relay.mk "se1-wg-001"; model.Relay.mk "se1-wg-002"].

Definition gothenburg : model.RelayListCity.RelayListCity :=
  model.RelayListCity.mk "Gothenburg" "got" [model.Relay.mk "se3-wg-001"].

Definition sweden : model.RelayListCountry.RelayListCountry :=
  model.RelayListCountry.mk "Sweden" "se" [stockholm; gothenburg].

Definition norway : model.RelayListCountry.RelayListCountry :=
  model.RelayListCountry.mk "Norway" "no"
    [model.RelayListCity.mk "Oslo" "osl" [model.Relay.mk "no1-wg-001"]].

Definition nordic : model.RelayList.RelayList :=
  model.RelayList.mk [sweden; norway].

(** A model that lists the code "se" twice: first with an empty Stockholm,
    then with the Stockholm that has a relay. *)
Definition empty_stockholm : model.RelayListCity.RelayListCity :=
  model.RelayListCity.mk "Stockholm" "sto" [].

Definition sweden_no_relays : model.RelayListCountry.RelayListCountry :=
  model.RelayListCountry.mk "Sweden" "se" [empty_stockholm].

Definition twice_sweden : model.RelayList.RelayList :=
  model.RelayList.mk [sweden_no_relays; sweden].

(** A Sweden that lists the city code "sto" twice, the empty one first. *)
Definition twice_stockholm : model.RelayList.RelayList :=
  model.RelayList.mk
    [model.RelayListCountry.mk "Sweden" "se" [empty_stockholm; stockholm]].

Definition se1_wg_001 : Relay.Relay := Relay.mk "se" "sto" "se1-wg-001".

End Sample.

(** ** Vocabulary for the position of a node *)

(** The country code a location starts with. *)
Definition location_countryCode (location : model.LocationConstraint)
  : string :=
  match location with
  | model.Country countryCode => countryCode
  | model.City countryCode _ => countryCode
  | model.Hostname countryCode _ _ => countryCode
  end.

(** The location a node stores about itself. *)
Definition location_of_item (item : RelayItem) : model.LocationConstraint :=
  match item with
  | ItemCountry country => model.Country (RelayCountry.code country)
  | ItemCity city =>
      model.City (RelayCity.countryCode city) (RelayCity.code city)
  | ItemRelay relay =>
      model.Hostname (Relay.countryCode relay) (Relay.cityCode relay)
        (Relay.name relay)
  end.

(** [item] is a node of the tree. *)
Definition item_in_tree (this : RelayList.RelayList) (item : RelayItem)
  : Prop :=
  match item with
  | ItemCountry country => In country (RelayList.countries this)
  | ItemCity city =>
      exists country,
        In country (RelayList.countries this) /\
        In city (RelayCountry.cities country)
  | ItemRelay relay => relay_present this relay
  end.

(** [item] is a node of the tree, of the level [location] names, and the
    nodes on the way down to it carry the codes of [location]. *)
Definition resolves_under (this : RelayList.RelayList)
    (location : model.LocationConstraint) (item : RelayItem) : Prop :=
  match location, item with
  | model.Country countryCode, ItemCountry country =>
      In country (RelayList.countries this) /\
      RelayCountry.code country = countryCode
  | model.City countryCode cityCode, ItemCity city =>
      exists country,
        In country (RelayList.countries this) /\
        RelayCountry.code country = countryCode /\
        In city (RelayCountry.cities country) /\
        RelayCity.code city = cityCode
  | model.Hostname countryCode cityCode hostname, ItemRelay relay =>
      exists country city,
        owns_relay this country city relay /\
        RelayCountry.code country = countryCode /\
        RelayCity.code city = cityCode /\
        Relay.name relay = hostname
  | _, _ => False
  end.

(** What the input model must hold for a location to resolve: the first
    country with the country code, in it the first city with the city code,
    in it some relay with the hostname. *)
Definition model_resolves (m : model.RelayList.RelayList)
    (location : model.LocationConstraint) : Prop :=
  match location with
  | model.Country countryCode =>
      In countryCode
        (map model.RelayListCountry.code (model.RelayList.countries m))
  | model.City countryCode cityCode =>
      exists country,
        first_match model.RelayListCountry.code countryCode
          (model.RelayList.countries m) country /\
        In cityCode
          (map model.RelayListCity.code (model.RelayListCountry.cities country))
  | model.Hostname countryCode cityCode hostname =>
      exists country city,
        first_match model.RelayListCountry.code countryCode
          (model.RelayList.countries m) country /\
        first_match model.RelayListCity.code cityCode
          (model.RelayListCountry.cities country) city /\
        In hostname
          (map model.Relay.hostname (model.RelayListCity.relays city))
  end.

(** The relay list cut down to the countries that carry one code. *)
Definition only_code (countryCode : string) (this : RelayList.RelayList)
  : RelayList.RelayList :=
  RelayList.mk
    (filter (fun country => RelayCountry.code country =? countryCode)
       (RelayList.countries this)).

(** A model with further countries listed after its own. *)
Definition extended (m : model.RelayList.RelayList)
    (extra : list model.RelayListCountry.RelayListCountry)
  : model.RelayList.RelayList :=
  model.RelayList.mk (model.RelayList.countries m ++ extra).

(** ** The class [WelcomeViewModel] (package [net.mullvad.mullvadvpn.viewmodel])

    The view model is embedded by what it does to its collaborators.  Every
    [viewModelScope.launch] starts a coroutine; a coroutine is the sequence
    of calls its body makes, in program order, and a member function is the
    list of coroutines it launches, in launch order.  The reactive streams
    [uiState] and [uiSideEffect] are not part of this embedding. *)

Module WelcomeViewModel.

Section Collaborators.

(** [net.mullvad.mullvadvpn.lib.model.WebsiteAuthToken] and the constant
    [ACCOUNT_EXPIRY_POLL_INTERVAL] are declared outside the sources. *)
Variable WebsiteAuthToken : Type.
Variable Duration : Type.
Variable ACCOUNT_EXPIRY_POLL_INTERVAL : Duration.

(** [sealed interface UiSideEffect] *)
Inductive UiSideEffect : Type :=
| OpenAccountView (token : WebsiteAuthToken)
| OpenConnectScreen.

(** The suspending calls a coroutine of the view model makes. *)
Inductive Call : Type :=
| accountRepository_getAccountData
| accountRepository_getWebsiteAuthToken
| paymentUseCase_verifyPurchases
| paymentUseCase_queryPaymentAvailability
| paymentUseCase_resetPurchaseResult
| deviceRepository_updateDevice
| delay (time : Duration)
| uiSideEffect_send (effect : UiSideEffect).

Definition Coroutine : Type := list Call.

(** [private suspend fun updateAccountExpiry()] *)
Definition updateAccountExpiry : list Call :=
  [accountRepository_getAccountData].

(** [private fun verifyPurchases()] *)
Definition verifyPurchases : list Coroutine :=
  [ [paymentUseCase_verifyPurchases] ++ updateAccountExpiry ].

(** [private fun fetchPaymentAvailability()] *)
Definition fetchPaymentAvailability : list Coroutine :=
  [ [paymentUseCase_queryPaymentAvailability] ].

(** [fun onClosePurchaseResultDialog(success: Boolean)] *)
Definition onClosePurchaseResultDialog (success : bool) : list Coroutine :=
  (if success
   then [ updateAccountExpiry ]
   else fetchPaymentAvailability ++ verifyPurchases)
  ++ [ [paymentUseCase_resetPurchaseResult] ].

(** [fun onSitePaymentClick()]; [websiteAuthToken] is what
    [accountRepository.getWebsiteAuthToken()] answers. *)
Definition onSitePaymentClick (websiteAuthToken : option WebsiteAuthToken)
  : list Coroutine :=
  [ [accountRepository_getWebsiteAuthToken] ++
    match websiteAuthToken with
    | Some token => [uiSideEffect_send (OpenAccountView token)]
    | None => []
    end ].

(** The loop [while (pollAccountExpiry) { updateAccountExpiry(); delay(...) }]
    of [init], followed for at most [fuel] iterations: the calls made so far,
    and whether the loop condition has ended the loop.  Cancellation of the
    scope while the coroutine is suspended is not part of this embedding. *)
Fixpoint pollLoop (pollAccountExpiry : bool) (fuel : nat)
  : list Call * bool :=
  if pollAccountExpiry then
    match fuel with
    | O => ([], false)
    | S fuel' =>
        let (calls, left) := pollLoop pollAccountExpiry fuel' in
        (updateAccountExpiry ++ [delay ACCOUNT_EXPIRY_POLL_INTERVAL] ++ calls,
         left)
    end
  else ([], true).

(** The [init] block, with its polling coroutine followed for [fuel]
    iterations. *)
Definition init (pollAccountExpiry : bool) (fuel : nat) : list Coroutine :=
  [ fst (pollLoop pollAccountExpiry fuel) ]
  ++ verifyPurchases
  ++ fetchPaymentAvailability
  ++ [ [deviceRepository_updateDevice] ].

(** Which call a [Call] is. *)
Definition is_getAccountData (call : Call) : bool :=
  match call with accountRepository_getAccountData => true | _ => false end.

Definition is_verifyPurchases (call : Call) : bool :=
  match call with paymentUseCase_verifyPurchases => true | _ => false end.

Definition is_queryPaymentAvailability (call : Call) : bool :=
  match call with
  | paymentUseCase_queryPaymentAvailability => true
  | _ => false
  end.

Definition is_resetPurchaseResult (call : Call) : bool :=
  match call with paymentUseCase_resetPurchaseResult => true | _ => false end.

Definition is_updateDevice (call : Call) : bool :=
  match call with deviceRepository_updateDevice => true | _ => false end.

Definition is_send (call : Call) : bool :=
  match call with uiSideEffect_send _ => true | _ => false end.

(** How many calls of one kind a list of coroutines makes in all. *)
Definition calls (which : Call -> bool) (coroutines : list Coroutine) : nat :=
  List.length (filter which (List.concat coroutines)).

End Collaborators.

Arguments OpenAccountView {WebsiteAuthToken} token.
Arguments OpenConnectScreen {WebsiteAuthToken}.
Arguments accountRepository_getAccountData {WebsiteAuthToken Duration}.
Arguments accountRepository_getWebsiteAuthToken {WebsiteAuthToken Duration}.
Arguments paymentUseCase_verifyPurchases {WebsiteAuthToken Duration}.
Arguments paymentUseCase_queryPaymentAvailability {WebsiteAuthToken Duration}.
Arguments paymentUseCase_resetPurchaseResult {WebsiteAuthToken Duration}.
Arguments deviceRepository_updateDevice {WebsiteAuthToken Duration}.
Arguments delay {WebsiteAuthToken Duration} time.
Arguments uiSideEffect_send {WebsiteAuthToken Duration} effect.
Arguments onSitePaymentClick : clear implicits.
Arguments pollLoop : clear implicits.
Arguments init : clear implicits.
Arguments is_getAccountData {WebsiteAuthToken Duration} call.
Arguments is_verifyPurchases {WebsiteAuthToken Duration} call.
Arguments is_queryPaymentAvailability {WebsiteAuthToken Duration} call.
Arguments is_resetPurchaseResult {WebsiteAuthToken Duration} call.
Arguments is_updateDevice {WebsiteAuthToken Duration} call.
Arguments is_send {WebsiteAuthToken Duration} call.
Arguments calls {WebsiteAuthToken Duration} which coroutines.

End WelcomeViewModel.

(** ** Facts about scans *)

Section ScanFacts.

Variable T : Type.
Variable key : T -> string.

Lemma find_by_key_nil wanted : find_by_key key wanted [] = None.
Proof. reflexivity. Qed.

Lemma find_by_key_hit wanted x l :
  key x = wanted -> find_by_key key wanted (x :: l) = Some x.
Proof.
  intros Hk. unfold find_by_key. simpl.
  apply String.eqb_eq in Hk. now rewrite Hk.
Qed.

Lemma find_by_key_skip wanted x l :
  key x <> wanted -> find_by_key key wanted (x :: l) = find_by_key key wanted l.
Proof.
  intros Hk. unfold find_by_key. simpl.
  apply String.eqb_neq in Hk. now rewrite Hk.
Qed.

Lemma find_by_key_None wanted l :
  find_by_key key wanted l = None <-> no_match key wanted l.
Proof.
  unfold no_match. induction l as [|x l IH].
  - split; [intros _ y [] | reflexivity].
  - destruct (string_dec (key x) wanted) as [Heq | Hne].
    + rewrite (find_by_key_hit l Heq). split; [discriminate |].
      intros H. exfalso. apply (H x); [now left | exact Heq].
    + rewrite (find_by_key_skip l Hne), IH. split.
      * intros H y [<- | Hy]; [exact Hne | now apply H].
      * intros H y Hy. apply H. now right.
Qed.

Lemma find_by_key_Some wanted l x :
  find_by_key key wanted l = Some x <-> first_match key wanted l x.
Proof.
  unfold first_match. revert x. induction l as [|a l IH]; intros x.
  - rewrite find_by_key_nil. split; [discriminate |].
    intros (before & after & Hl & _). now destruct before.
  - destruct (string_dec (key a) wanted) as [Heq | Hne].
    + rewrite (find_by_key_hit l Heq). split.
      * intros [= <-]. exists [], l. repeat split; [exact Heq | intros y []].
      * intros (before & after & Hl & Hx & Hbefore).
        destruct before as [|b before]; simpl in Hl; injection Hl as <- _.
        -- reflexivity.
        -- exfalso. apply (Hbefore a); [now left | exact Heq].
    + rewrite (find_by_key_skip l Hne), IH. split.
      * intros (before & after & -> & Hx & Hbefore).
        exists (a :: before), after. repeat split; [exact Hx |].
        intros y [<- | Hy]; [exact Hne | now apply Hbefore].
      * intros (before & after & Hl & Hx & Hbefore).
        destruct before as [|b before]; simpl in Hl; injection Hl as <- ->.
        -- contradiction.
        -- exists before, after. repeat split; [exact Hx |].
           intros y Hy. apply Hbefore. now right.
Qed.

(** A scan either misses every element or stops at the first match. *)
Lemma find_by_key_cases wanted l :
  (find_by_key key wanted l = None /\ no_match key wanted l) \/
  (exists x, find_by_key key wanted l = Some x /\ first_match key wanted l x).
Proof.
  destruct (find_by_key key wanted l) as [x|] eqn:E.
  - right. exists x. split; [reflexivity | now apply find_by_key_Some].
  - left. split; [reflexivity | now apply find_by_key_None].
Qed.

Lemma first_match_In wanted l x : first_match key wanted l x -> In x l.
Proof.
  intros (before & after & -> & _). apply in_or_app. right. now left.
Qed.

Lemma first_match_key wanted l x : first_match key wanted l x -> key x = wanted.
Proof. now intros (before & after & _ & Hk & _). Qed.

(** With pairwise distinct keys, scanning for the key of a member finds
    that very member. *)
Lemma find_by_key_NoDup l x :
  NoDup (map key l) -> In x l -> find_by_key key (key x) l = Some x.
Proof.
  induction l as [|a l IH]; intros Hnd Hin; [contradiction |].
  simpl in Hnd. inversion Hnd as [|k ks Hnotin Hnd']; subst.
  destruct Hin as [-> | Hin].
  - now apply find_by_key_hit.
  - rewrite find_by_key_skip; [now apply IH |].
    intros Heq. apply Hnotin. rewrite Heq. now apply in_map.
Qed.

End ScanFacts.

(** ** The lookup, level by level *)

Section Lookup.

Variable this : RelayList.RelayList.

(** The country scan of all three branches. *)
Lemma lookup_country_eq countryCode :
  RelayList.findItemForLocation this (model.Only (model.Country countryCode))
  = option_map ItemCountry
      (find_by_key RelayCountry.code countryCode (RelayList.countries this)).
Proof. reflexivity. Qed.

Lemma lookup_city_miss countryCode cityCode :
  find_by_key RelayCountry.code countryCode (RelayList.countries this) = None ->
  RelayList.findItemForLocation this
    (model.Only (model.City countryCode cityCode)) = None.
Proof.
  unfold find_by_key, RelayList.findItemForLocation. now intros ->.
Qed.

Lemma lookup_city_in countryCode cityCode country :
  find_by_key RelayCountry.code countryCode (RelayList.countries this)
  = Some country ->
  RelayList.findItemForLocation this
    (model.Only (model.City countryCode cityCode))
  = option_map ItemCity
      (find_by_key RelayCity.code cityCode (RelayCountry.cities country)).
Proof.
  unfold find_by_key, RelayList.findItemForLocation. now intros ->.
Qed.

Lemma lookup_hostname_miss countryCode cityCode hostname :
  find_by_key RelayCountry.code countryCode (RelayList.countries this) = None ->
  RelayList.findItemForLocation this
    (model.Only (model.Hostname countryCode cityCode hostname)) = None.
Proof.
  unfold find_by_key, RelayList.findItemForLocation. now intros ->.
Qed.

Lemma lookup_hostname_city_miss countryCode cityCode hostname country :
  find_by_key RelayCountry.code countryCode (RelayList.countries this)
  = Some country ->
  find_by_key RelayCity.code cityCode (RelayCountry.cities country) = None ->
  RelayList.findItemForLocation this
    (model.Only (model.Hostname countryCode cityCode hostname)) = None.
Proof.
  unfold find_by_key, RelayList.findItemForLocation. intros -> H.
  simpl. now rewrite H.
Qed.

Lemma lookup_hostname_in countryCode cityCode hostname country city :
  find_by_key RelayCountry.code countryCode (RelayList.countries this)
  = Some country ->
  find_by_key RelayCity.code cityCode (RelayCountry.cities country)
  = Some city ->
  RelayList.findItemForLocation this
    (model.Only (model.Hostname countryCode cityCode hostname))
  = option_map ItemRelay
      (find_by_key Relay.name hostname (RelayCity.relays city)).
Proof.
  unfold find_by_key, RelayList.findItemForLocation. intros -> H.
  simpl. now rewrite H.
Qed.

End Lookup.

(** C3.  Whatever the relay list holds, looking up the unconstrained
    location [Constraint.Any] gives no node. *)
Theorem findItemForLocation_any (this : RelayList.RelayList) :
  RelayList.findItemForLocation this model.Any = None.
Proof. destruct this as [countries]. reflexivity. Qed.

(** C4.  A [Country] lookup scans the top-level countries from the left:
    either no country carries exactly the queried code and the result is
    absent, or the result is the first country, in stored order, whose code
    is exactly the queried one (so among duplicates the earliest wins). *)
Theorem findItemForLocation_country (this : RelayList.RelayList)
    (code : string) :
  let result :=
    RelayList.findItemForLocation this (model.Only (model.Country code)) in
  (no_match RelayCountry.code code (RelayList.countries this) /\
   result = None)
  \/
  (exists country,
      first_match RelayCountry.code code (RelayList.countries this) country /\
      result = Some (ItemCountry country)).
Proof.
  intros result. subst result. rewrite lookup_country_eq.
  destruct (find_by_key_cases RelayCountry.code code (RelayList.countries this))
    as [[E Hno] | (country & E & Hfirst)]; rewrite E.
  - left. now split.
  - right. exists country. now split.
Qed.

(** C5.  A [City] lookup first scans for the country; when no country has
    the code the result is absent; otherwise the cities of the first matching
    country are scanned from the left, and the result is the first city with
    exactly the queried city code, or absent when that country has none. *)
Theorem findItemForLocation_city (this : RelayList.RelayList)
    (countryCode cityCode : string) :
  let result :=
    RelayList.findItemForLocation this
      (model.Only (model.City countryCode cityCode)) in
  (no_match RelayCountry.code countryCode (RelayList.countries this) /\
   result = None)
  \/
  (exists country,
      first_match RelayCountry.code countryCode (RelayList.countries this)
        country /\
      ((no_match RelayCity.code cityCode (RelayCountry.cities country) /\
        result = None)
       \/
       (exists city,
           first_match RelayCity.code cityCode (RelayCountry.cities country)
             city /\
           result = Some (ItemCity city)))).
Proof.
  intros result. subst result.
  destruct (find_by_key_cases RelayCountry.code countryCode
              (RelayList.countries this))
    as [[E Hno] | (country & E & Hfirst)].
  - left. split; [exact Hno | now apply lookup_city_miss].
  - right. exists country. split; [exact Hfirst |].
    rewrite (lookup_city_in this countryCode cityCode E).
    destruct (find_by_key_cases RelayCity.code cityCode
                (RelayCountry.cities country))
      as [[E' Hno'] | (city & E' & Hfirst')]; rewrite E'.
    + left. now split.
    + right. exists city. now split.
Qed.

(** C2.  A [Hostname] lookup goes down the chain country, city, relay: the
    first country with exactly the queried country code, then the first city
    of that country with exactly the queried city code, then the first relay
    of that city whose name is exactly the queried hostname, which is the
    result; a miss at any of the three scans makes the result absent. *)
Theorem findItemForLocation_hostname (this : RelayList.RelayList)
    (countryCode cityCode hostname : string) :
  let result :=
    RelayList.findItemForLocation this
      (model.Only (model.Hostname countryCode cityCode hostname)) in
  (no_match RelayCountry.code countryCode (RelayList.countries this) /\
   result = None)
  \/
  (exists country,
      first_match RelayCountry.code countryCode (RelayList.countries this)
        country /\
      ((no_match RelayCity.code cityCode (RelayCountry.cities country) /\
        result = None)
       \/
       (exists city,
           first_match RelayCity.code cityCode (RelayCountry.cities country)
             city /\
           ((no_match Relay.name hostname (RelayCity.relays city) /\
             result = None)
            \/
            (exists relay,
                first_match Relay.name hostname (RelayCity.relays city)
                  relay /\
                result = Some (ItemRelay relay)))))).
Proof.
  intros result. subst result.
  destruct (find_by_key_cases RelayCountry.code countryCode
              (RelayList.countries this))
    as [[E Hno] | (country & E & Hfirst)].
  - left. split; [exact Hno | now apply lookup_hostname_miss].
  - right. exists country. split; [exact Hfirst |].
    destruct (find_by_key_cases RelayCity.code cityCode
                (RelayCountry.cities country))
      as [[E' Hno'] | (city & E' & Hfirst')].
    + left. split; [exact Hno' |].
      now apply lookup_hostname_city_miss with (country := country).
    + right. exists city. split; [exact Hfirst' |].
      rewrite (lookup_hostname_in this countryCode cityCode hostname E E').
      destruct (find_by_key_cases Relay.name hostname (RelayCity.relays city))
        as [[E'' Hno''] | (relay & E'' & Hfirst'')]; rewrite E''.
      * left. now split.
      * right. exists relay. now split.
Qed.

(** C9.  A node returned for [Only location] is of the level [location]
    names and carries the queried identifier: the country's code for
    [Country], the city's code for [City], the relay's name for
    [Hostname]. *)
Theorem findItemForLocation_identifies (this : RelayList.RelayList)
    (location : model.LocationConstraint) (item : RelayItem) :
  RelayList.findItemForLocation this (model.Only location) = Some item ->
  identifies location item.
Proof.
  destruct location as [cc | cc ci | cc ci h].
  - rewrite lookup_country_eq.
    destruct (find_by_key RelayCountry.code cc (RelayList.countries this))
      as [country|] eqn:E; [| discriminate].
    intros [= <-]. simpl.
    apply find_by_key_Some in E. exact (first_match_key E).
  - destruct (find_by_key RelayCountry.code cc (RelayList.countries this))
      as [country|] eqn:E.
    + rewrite (lookup_city_in this cc ci E).
      destruct (find_by_key RelayCity.code ci (RelayCountry.cities country))
        as [city|] eqn:E'; [| discriminate].
      intros [= <-]. simpl.
      apply find_by_key_Some in E'. exact (first_match_key E').
    + rewrite (lookup_city_miss this cc ci E). discriminate.
  - destruct (find_by_key RelayCountry.code cc (RelayList.countries this))
      as [country|] eqn:E.
    + destruct (find_by_key RelayCity.code ci (RelayCountry.cities country))
        as [city|] eqn:E'.
      * rewrite (lookup_hostname_in this cc ci h E E').
        destruct (find_by_key Relay.name h (RelayCity.relays city))
          as [relay|] eqn:E''; [| discriminate].
        intros [= <-]. simpl.
        apply find_by_key_Some in E''. exact (first_match_key E'').
      * rewrite (lookup_hostname_city_miss this cc ci h E E'). discriminate.
    + rewrite (lookup_hostname_miss this cc ci h E). discriminate.
Qed.

Lemma findItemForLocation_identifies_witness :
  RelayList.findItemForLocation (RelayList.constructor Sample.nordic)
    (model.Only (model.Hostname "se" "sto" "se1-wg-002"))
  = Some (ItemRelay (Relay.mk "se" "sto" "se1-wg-002"))
  /\
  identifies (model.Hostname "se" "sto" "se1-wg-002")
    (ItemRelay (Relay.mk "se" "sto" "se1-wg-002")).
Proof.
  split.
  - reflexivity.
  - apply (findItemForLocation_identifies
             (RelayList.constructor Sample.nordic)
             (model.Hostname "se" "sto" "se1-wg-002")).
    reflexivity.
Defined.

(** C10.  When a lookup succeeds, so does the lookup of every shallower
    location with the same leading codes: a found relay means its city is
    found, and a found city means its country is found. *)
Theorem findItemForLocation_prefix (this : RelayList.RelayList)
    (shallower deeper : model.LocationConstraint) :
  shallower_prefix shallower deeper ->
  returns_node (RelayList.findItemForLocation this (model.Only deeper)) ->
  returns_node (RelayList.findItemForLocation this (model.Only shallower)).
Proof.
  unfold returns_node.
  intros [cc ci | cc ci h | cc ci h] [item Hitem].
  - rewrite lookup_country_eq.
    destruct (find_by_key RelayCountry.code cc (RelayList.countries this))
      as [country|] eqn:E.
    + now exists (ItemCountry country).
    + rewrite (lookup_city_miss this cc ci E) in Hitem. discriminate.
  - destruct (find_by_key RelayCountry.code cc (RelayList.countries this))
      as [country|] eqn:E.
    + rewrite (lookup_city_in this cc ci E).
      destruct (find_by_key RelayCity.code ci (RelayCountry.cities country))
        as [city|] eqn:E'.
      * now exists (ItemCity city).
      * rewrite (lookup_hostname_city_miss this cc ci h E E') in Hitem.
        discriminate.
    + rewrite (lookup_hostname_miss this cc ci h E) in Hitem. discriminate.
  - rewrite lookup_country_eq.
    destruct (find_by_key RelayCountry.code cc (RelayList.countries this))
      as [country|] eqn:E.
    + now exists (ItemCountry country).
    + rewrite (lookup_hostname_miss this cc ci h E) in Hitem. discriminate.
Qed.

Lemma findItemForLocation_prefix_witness :
  shallower_prefix (model.City "se" "got")
    (model.Hostname "se" "got" "se3-wg-001")
  /\
  returns_node
    (RelayList.findItemForLocation (RelayList.constructor Sample.nordic)
       (model.Only (model.Hostname "se" "got" "se3-wg-001")))
  /\
  returns_node
    (RelayList.findItemForLocation (RelayList.constructor Sample.nordic)
       (model.Only (model.City "se" "got"))).
Proof.
  assert (Hdeep : returns_node
            (RelayList.findItemForLocation
               (RelayList.constructor Sample.nordic)
               (model.Only (model.Hostname "se" "got" "se3-wg-001")))).
  { exists (ItemRelay (Relay.mk "se" "got" "se3-wg-001")). reflexivity. }
  split; [constructor | split; [exact Hdeep |]].
  exact (findItemForLocation_prefix
           (RelayList.constructor Sample.nordic)
           (prefix_city_hostname "se" "got" "se3-wg-001") Hdeep).
Defined.

(** ** The constructor *)

Lemma constructor_countries (m : model.RelayList.RelayList) :
  RelayList.countries (RelayList.constructor m)
  = map country_of (model.RelayList.countries m).
Proof. reflexivity. Qed.

Lemma relay_to_model_of country city relay :
  relay_to_model (relay_of country city relay) = relay.
Proof. now destruct relay. Qed.

Lemma city_to_model_of country city : city_to_model (city_of country city) = city.
Proof.
  destruct city as [name code relays]. unfold city_to_model, city_of. simpl.
  f_equal. rewrite map_map. rewrite <- (map_id relays) at 2.
  apply map_ext. intros relay. apply relay_to_model_of.
Qed.

Lemma country_to_model_of country : country_to_model (country_of country) = country.
Proof.
  destruct country as [name code cities].
  unfold country_to_model, country_of. simpl.
  f_equal. rewrite map_map. rewrite <- (map_id cities) at 2.
  apply map_ext. intros city. apply city_to_model_of.
Qed.

Lemma in_constructor_country (m : model.RelayList.RelayList) country :
  In country (RelayList.countries (RelayList.constructor m)) <->
  exists source,
    In source (model.RelayList.countries m) /\ country = country_of source.
Proof.
  rewrite constructor_countries, in_map_iff. split.
  - intros (source & <- & Hin). now exists source.
  - intros (source & Hin & ->). now exists source.
Qed.

Lemma in_country_of_city source city :
  In city (RelayCountry.cities (country_of source)) <->
  exists source_city,
    In source_city (model.RelayListCountry.cities source) /\
    city = city_of source source_city.
Proof.
  simpl. rewrite in_map_iff. split.
  - intros (sc & <- & Hin). now exists sc.
  - intros (sc & Hin & ->). now exists sc.
Qed.

Lemma in_city_of_relay source source_city relay :
  In relay (RelayCity.relays (city_of source source_city)) <->
  exists source_relay,
    In source_relay (model.RelayListCity.relays source_city) /\
    relay = relay_of source source_city source_relay.
Proof.
  simpl. rewrite in_map_iff. split.
  - intros (sr & <- & Hin). now exists sr.
  - intros (sr & Hin & ->). now exists sr.
Qed.

(** C6.  Construction keeps every level as the input gives it: reading the
    tree back yields the input model itself, and the sequence of country
    codes, of each country's city codes and of each city's relay names is the
    input's sequence, entry for entry, duplicates included. *)
Theorem constructor_preserves_order (m : model.RelayList.RelayList) :
  to_model (RelayList.constructor m) = m
  /\
  map RelayCountry.code (RelayList.countries (RelayList.constructor m))
  = map model.RelayListCountry.code (model.RelayList.countries m)
  /\
  map (fun country => map RelayCity.code (RelayCountry.cities country))
      (RelayList.countries (RelayList.constructor m))
  = map (fun country =>
           map model.RelayListCity.code (model.RelayListCountry.cities country))
        (model.RelayList.countries m)
  /\
  map (fun country =>
         map (fun city => map Relay.name (RelayCity.relays city))
             (RelayCountry.cities country))
      (RelayList.countries (RelayList.constructor m))
  = map (fun country =>
           map (fun city =>
                  map model.Relay.hostname (model.RelayListCity.relays city))
               (model.RelayListCountry.cities country))
        (model.RelayList.countries m).
Proof.
  rewrite constructor_countries. repeat split.
  - destruct m as [countries]. unfold to_model.
    rewrite constructor_countries. simpl. f_equal.
    rewrite map_map. rewrite <- (map_id countries) at 2.
    apply map_ext. intros country. apply country_to_model_of.
  - rewrite map_map. reflexivity.
  - rewrite map_map. apply map_ext. intros country. simpl.
    rewrite map_map. reflexivity.
  - rewrite map_map. apply map_ext. intros country. simpl.
    rewrite map_map. apply map_ext. intros city. simpl.
    rewrite map_map. reflexivity.
Qed.

(** C7.  In a constructed relay list every city stores the code of the
    country that owns it, and every relay stores the code of its owning
    country and the code of its owning city. *)
Theorem constructor_codes_follow_owner (m : model.RelayList.RelayList)
    (country : RelayCountry.RelayCountry) (city : RelayCity.RelayCity) :
  In country (RelayList.countries (RelayList.constructor m)) ->
  In city (RelayCountry.cities country) ->
  RelayCity.countryCode city = RelayCountry.code country
  /\
  forall relay, In relay (RelayCity.relays city) ->
    Relay.countryCode relay = RelayCountry.code country /\
    Relay.cityCode relay = RelayCity.code city.
Proof.
  intros Hcountry Hcity.
  apply in_constructor_country in Hcountry as (source & _ & ->).
  apply in_country_of_city in Hcity as (source_city & _ & ->).
  split; [reflexivity |].
  intros relay Hrelay.
  apply in_city_of_relay in Hrelay as (source_relay & _ & ->).
  split; reflexivity.
Qed.

Lemma constructor_codes_follow_owner_witness :
  In (country_of Sample.sweden)
     (RelayList.countries (RelayList.constructor Sample.nordic))
  /\
  In (city_of Sample.sweden Sample.gothenburg)
     (RelayCountry.cities (country_of Sample.sweden))
  /\
  RelayCity.countryCode (city_of Sample.sweden Sample.gothenburg) = "se"
  /\
  Relay.countryCode (Relay.mk "se" "got" "se3-wg-001") = "se"
  /\
  Relay.cityCode (Relay.mk "se" "got" "se3-wg-001") = "got".
Proof.
  assert (Hcountry : In (country_of Sample.sweden)
            (RelayList.countries (RelayList.constructor Sample.nordic)))
    by (simpl; now left).
  assert (Hcity : In (city_of Sample.sweden Sample.gothenburg)
            (RelayCountry.cities (country_of Sample.sweden)))
    by (simpl; right; now left).
  destruct (constructor_codes_follow_owner Sample.nordic _ _ Hcountry Hcity)
    as [Hcc Hrelays].
  split; [exact Hcountry | split; [exact Hcity | split; [exact Hcc |]]].
  apply (Hrelays (Relay.mk "se" "got" "se3-wg-001")).
  simpl. now left.
Defined.

(** C8.  Whatever the input model, construction gives every country entry
    and every city entry of the model a node whose visibility/expansion flag
    is false: the flags of the country nodes are one [false] per country of
    the model, the flags of the city nodes of each country one [false] per
    city of that country, and so every country node and every city node of
    the constructed relay list has the flag false. *)
Theorem constructor_collapsed (m : model.RelayList.RelayList) :
  map RelayCountry.expanded (RelayList.countries (RelayList.constructor m))
  = map (fun _ => false) (model.RelayList.countries m)
  /\
  map (fun country => map RelayCity.expanded (RelayCountry.cities country))
      (RelayList.countries (RelayList.constructor m))
  = map (fun country =>
           map (fun _ => false) (model.RelayListCountry.cities country))
        (model.RelayList.countries m)
  /\
  Forall
    (fun country =>
       RelayCountry.expanded country = false /\
       Forall (fun city => RelayCity.expanded city = false)
         (RelayCountry.cities country))
    (RelayList.countries (RelayList.constructor m)).
Proof.
  rewrite constructor_countries. split; [| split].
  - rewrite map_map. reflexivity.
  - rewrite map_map. apply map_ext. intros country. simpl.
    rewrite map_map. reflexivity.
  - rewrite <- constructor_countries.
    apply Forall_forall. intros country Hcountry.
    apply in_constructor_country in Hcountry as (source & _ & ->).
    split; [reflexivity |].
    apply Forall_forall. intros city Hcity.
    apply in_country_of_city in Hcity as (source_city & _ & ->).
    reflexivity.
Qed.

Lemma constructor_collapsed_witness :
  map RelayCountry.expanded
    (RelayList.countries (RelayList.constructor Sample.nordic))
  = [false; false]
  /\
  map (fun country => map RelayCity.expanded (RelayCountry.cities country))
      (RelayList.countries (RelayList.constructor Sample.nordic))
  = [[false; false]; [false]]
  /\
  Forall
    (fun country =>
       RelayCountry.expanded country = false /\
       Forall (fun city => RelayCity.expanded city = false)
         (RelayCountry.cities country))
    (RelayList.countries (RelayList.constructor Sample.nordic)).
Proof. exact (constructor_collapsed Sample.nordic). Defined.

(** ** Round trip of a relay through the lookup *)

(** The codes of the constructed countries are those of the model, in the
    same order; likewise for the cities of one country. *)
Lemma country_of_codes countries :
  map RelayCountry.code (map country_of countries)
  = map model.RelayListCountry.code countries.
Proof. rewrite map_map. reflexivity. Qed.

Lemma city_of_codes source cities :
  map RelayCity.code (map (city_of source) cities)
  = map model.RelayListCity.code cities.
Proof. rewrite map_map. reflexivity. Qed.

(** A relay that a lookup finds in the city built from [source_city] is
    value-equal to every relay of that city with the queried name. *)
Lemma find_relay_of source source_city source_relay :
  In source_relay (model.RelayListCity.relays source_city) ->
  find_by_key Relay.name (model.Relay.hostname source_relay)
    (RelayCity.relays (city_of source source_city))
  = Some (relay_of source source_city source_relay).
Proof.
  intros Hin.
  destruct (find_by_key_cases Relay.name (model.Relay.hostname source_relay)
              (RelayCity.relays (city_of source source_city)))
    as [[_ Hno] | (found & E & Hfirst)].
  - exfalso.
    apply (Hno (relay_of source source_city source_relay));
      [| reflexivity].
    apply in_city_of_relay. now exists source_relay.
  - rewrite E. f_equal.
    pose proof (first_match_key Hfirst) as Hname.
    apply first_match_In, in_city_of_relay in Hfirst as (other & _ & ->).
    unfold relay_of in *. simpl in Hname. now rewrite Hname.
Qed.

(** The lookup of a relay's own path when its country is the first with its
    code and its city the first with its code in that country. *)
Lemma lookup_own_path (m : model.RelayList.RelayList)
    source source_city source_relay :
  find_by_key RelayCountry.code (model.RelayListCountry.code source)
    (RelayList.countries (RelayList.constructor m))
  = Some (country_of source) ->
  find_by_key RelayCity.code (model.RelayListCity.code source_city)
    (RelayCountry.cities (country_of source))
  = Some (city_of source source_city) ->
  In source_relay (model.RelayListCity.relays source_city) ->
  RelayList.findItemForLocation (RelayList.constructor m)
    (model.Only
       (model.Hostname (model.RelayListCountry.code source)
          (model.RelayListCity.code source_city)
          (model.Relay.hostname source_relay)))
  = Some (ItemRelay (relay_of source source_city source_relay)).
Proof.
  intros Hcountry Hcity Hrelay.
  rewrite (lookup_hostname_in (RelayList.constructor m) _ _
             (model.Relay.hostname source_relay) Hcountry Hcity).
  now rewrite (find_relay_of source source_city source_relay Hrelay).
Qed.

(** C1, as stated, fails: the model [Sample.twice_sweden] lists the code
    "se" twice, the relay "se1-wg-001" is present under the second entry,
    and the lookup of its own path stops at the first entry, whose Stockholm
    has no relays. *)
Lemma round_trip_fails_on_duplicate_codes :
  relay_present (RelayList.constructor Sample.twice_sweden) Sample.se1_wg_001
  /\
  RelayList.findItemForLocation (RelayList.constructor Sample.twice_sweden)
    (model.Only
       (model.Hostname (Relay.countryCode Sample.se1_wg_001)
          (Relay.cityCode Sample.se1_wg_001)
          (Relay.name Sample.se1_wg_001)))
  <> Some (ItemRelay Sample.se1_wg_001).
Proof.
  split.
  - exists (country_of Sample.sweden), (city_of Sample.sweden Sample.stockholm).
    repeat split; simpl.
    + right. now left.
    + now left.
    + now left.
  - discriminate.
Qed.

(** C1, amended.  When the model's codes are unique within their sibling
    lists (no two countries share a code, no two cities of one country do),
    every relay present in the constructed relay list is returned, as a
    value-equal node, by the [Hostname] lookup of its own country code, city
    code and name. *)
Theorem round_trip_unique_codes (m : model.RelayList.RelayList)
    (relay : Relay.Relay) :
  unique_codes m ->
  relay_present (RelayList.constructor m) relay ->
  RelayList.findItemForLocation (RelayList.constructor m)
    (model.Only
       (model.Hostname (Relay.countryCode relay) (Relay.cityCode relay)
          (Relay.name relay)))
  = Some (ItemRelay relay).
Proof.
  intros [Hcountries Hcities] (country & city & Hcountry & Hcity & Hrelay).
  apply in_constructor_country in Hcountry as (source & Hsource & ->).
  apply in_country_of_city in Hcity as (source_city & Hsource_city & ->).
  apply in_city_of_relay in Hrelay as (source_relay & Hsource_relay & ->).
  apply lookup_own_path.
  - rewrite constructor_countries.
    apply (find_by_key_NoDup RelayCountry.code
             (map country_of (model.RelayList.countries m))
             (country_of source)).
    + rewrite country_of_codes. exact Hcountries.
    + now apply in_map.
  - apply (find_by_key_NoDup RelayCity.code
             (RelayCountry.cities (country_of source))
             (city_of source source_city)).
    + simpl. rewrite city_of_codes. now apply Hcities.
    + apply in_country_of_city. now exists source_city.
  - exact Hsource_relay.
Qed.

Lemma round_trip_unique_codes_witness :
  unique_codes Sample.nordic
  /\
  relay_present (RelayList.constructor Sample.nordic) Sample.se1_wg_001
  /\
  RelayList.findItemForLocation (RelayList.constructor Sample.nordic)
    (model.Only (model.Hostname "se" "sto" "se1-wg-001"))
  = Some (ItemRelay Sample.se1_wg_001).
Proof.
  assert (Hunique : unique_codes Sample.nordic).
  { split.
    - simpl. repeat constructor; simpl; intuition discriminate.
    - intros country [<- | [<- | []]]; simpl;
        repeat constructor; simpl; intuition discriminate. }
  assert (Hpresent : relay_present (RelayList.constructor Sample.nordic)
                       Sample.se1_wg_001).
  { exists (country_of Sample.sweden), (city_of Sample.sweden Sample.stockholm).
    repeat split; simpl; now left. }
  split; [exact Hunique | split; [exact Hpresent |]].
  exact (round_trip_unique_codes Hunique Hpresent).
Defined.

(** The same failure with a city code listed twice inside one country. *)
Example round_trip_fails_on_duplicate_city_codes :
  relay_present (RelayList.constructor Sample.twice_stockholm)
    Sample.se1_wg_001
  /\
  RelayList.findItemForLocation (RelayList.constructor Sample.twice_stockholm)
    (model.Only (model.Hostname "se" "sto" "se1-wg-001"))
  = None.
Proof.
  split; [| reflexivity].
  exists (country_of (model.RelayListCountry.mk "Sweden" "se"
                        [Sample.empty_stockholm; Sample.stockholm])),
         (city_of Sample.sweden Sample.stockholm).
  repeat split; simpl.
  - now left.
  - right. now left.
  - now left.
Qed.

(** ** Worked lookups *)

Example lookup_country_se :
  RelayList.findItemForLocation (RelayList.constructor Sample.nordic)
    (model.Only (model.Country "se"))
  = Some (ItemCountry (country_of Sample.sweden)).
Proof. reflexivity. Qed.

Example lookup_city_se_sto :
  RelayList.findItemForLocation (RelayList.constructor Sample.nordic)
    (model.Only (model.City "se" "sto"))
  = Some (ItemCity (city_of Sample.sweden Sample.stockholm)).
Proof. reflexivity. Qed.

Example lookup_hostname_se1 :
  RelayList.findItemForLocation (RelayList.constructor Sample.nordic)
    (model.Only (model.Hostname "se" "sto" "se1-wg-001"))
  = Some (ItemRelay Sample.se1_wg_001).
Proof. reflexivity. Qed.

Example lookup_country_zz :
  RelayList.findItemForLocation (RelayList.constructor Sample.nordic)
    (model.Only (model.Country "zz"))
  = None.
Proof. reflexivity. Qed.

Example lookup_city_se_xx :
  RelayList.findItemForLocation (RelayList.constructor Sample.nordic)
    (model.Only (model.City "se" "xx"))
  = None.
Proof. reflexivity. Qed.

Example lookup_hostname_missing :
  RelayList.findItemForLocation (RelayList.constructor Sample.nordic)
    (model.Only (model.Hostname "se" "sto" "missing-host"))
  = None.
Proof. reflexivity. Qed.

(** Codes are compared exactly: a different letter case is a different
    code. *)
Example lookup_country_upper_case :
  RelayList.findItemForLocation (RelayList.constructor Sample.nordic)
    (model.Only (model.Country "SE"))
  = None.
Proof. reflexivity. Qed.

(** Among two countries with the code "se" the first in input order is
    returned. *)
Example lookup_country_first_of_two :
  RelayList.findItemForLocation (RelayList.constructor Sample.twice_sweden)
    (model.Only (model.Country "se"))
  = Some (ItemCountry (country_of Sample.sweden_no_relays)).
Proof. reflexivity. Qed.

(** ** More facts about scans *)

Section ScanMore.

Variable T : Type.
Variable key : T -> string.

(** A scan finds something exactly when the wanted key occurs. *)
Lemma find_by_key_found_iff wanted l :
  (exists x, find_by_key key wanted l = Some x) <-> In wanted (map key l).
Proof.
  split.
  - intros [x E]. apply find_by_key_Some in E.
    rewrite <- (first_match_key E). apply in_map. exact (first_match_In E).
  - intros Hin. apply in_map_iff in Hin as (y & Hy & Hin).
    destruct (find_by_key_cases key wanted l) as [[_ Hno] | (x & E & _)].
    + exfalso. exact (Hno y Hin Hy).
    + now exists x.
Qed.

(** What a scan found stays found when more elements follow. *)
Lemma find_by_key_app wanted l more x :
  find_by_key key wanted l = Some x ->
  find_by_key key wanted (l ++ more) = Some x.
Proof.
  induction l as [|a l IH]; [discriminate |].
  destruct (string_dec (key a) wanted) as [Heq | Hne]; simpl.
  - rewrite !(find_by_key_hit key _ _ Heq). trivial.
  - rewrite !(find_by_key_skip key _ _ Hne). exact IH.
Qed.

(** Elements with another key do not matter to a scan. *)
Lemma find_by_key_filter wanted l :
  find_by_key key wanted (filter (fun x => key x =? wanted) l)
  = find_by_key key wanted l.
Proof.
  induction l as [|a l IH]; [reflexivity |].
  destruct (string_dec (key a) wanted) as [Heq | Hne]; simpl.
  - rewrite (proj2 (String.eqb_eq _ _) Heq).
    now rewrite !(find_by_key_hit key _ _ Heq).
  - rewrite (proj2 (String.eqb_neq _ _) Hne).
    now rewrite (find_by_key_skip key _ _ Hne).
Qed.

(** Scanning a mapped list by a key the map preserves. *)
Lemma find_by_key_map (Source : Type) (source_key : Source -> string)
    (f : Source -> T)
    wanted l :
  (forall x, key (f x) = source_key x) ->
  find_by_key key wanted (map f l)
  = option_map f (find_by_key source_key wanted l).
Proof.
  intros Hkey. induction l as [|a l IH]; [reflexivity |].
  destruct (string_dec (source_key a) wanted) as [Heq | Hne]; simpl.
  - rewrite (find_by_key_hit source_key _ _ Heq).
    rewrite find_by_key_hit; [reflexivity | now rewrite Hkey].
  - rewrite (find_by_key_skip source_key _ _ Hne).
    rewrite find_by_key_skip; [exact IH | now rewrite Hkey].
Qed.

End ScanMore.

(** ** What a successful lookup tells *)

Section LookupInversion.

Variable this : RelayList.RelayList.

Lemma lookup_country_Some countryCode item :
  RelayList.findItemForLocation this (model.Only (model.Country countryCode))
  = Some item ->
  exists country,
    item = ItemCountry country /\
    find_by_key RelayCountry.code countryCode (RelayList.countries this)
    = Some country.
Proof.
  rewrite lookup_country_eq.
  destruct (find_by_key RelayCountry.code countryCode
              (RelayList.countries this)) as [country|]; [| discriminate].
  intros [= <-]. now exists country.
Qed.

Lemma lookup_city_Some countryCode cityCode item :
  RelayList.findItemForLocation this
    (model.Only (model.City countryCode cityCode)) = Some item ->
  exists country city,
    item = ItemCity city /\
    find_by_key RelayCountry.code countryCode (RelayList.countries this)
    = Some country /\
    find_by_key RelayCity.code cityCode (RelayCountry.cities country)
    = Some city.
Proof.
  destruct (find_by_key RelayCountry.code countryCode
              (RelayList.countries this)) as [country|] eqn:E.
  - rewrite (lookup_city_in this countryCode cityCode E).
    destruct (find_by_key RelayCity.code cityCode
                (RelayCountry.cities country)) as [city|] eqn:E';
      [| discriminate].
    intros [= <-]. now exists country, city.
  - rewrite (lookup_city_miss this countryCode cityCode E). discriminate.
Qed.

Lemma lookup_hostname_Some countryCode cityCode hostname item :
  RelayList.findItemForLocation this
    (model.Only (model.Hostname countryCode cityCode hostname)) = Some item ->
  exists country city relay,
    item = ItemRelay relay /\
    find_by_key RelayCountry.code countryCode (RelayList.countries this)
    = Some country /\
    find_by_key RelayCity.code cityCode (RelayCountry.cities country)
    = Some city /\
    find_by_key Relay.name hostname (RelayCity.relays city) = Some relay.
Proof.
  destruct (find_by_key RelayCountry.code countryCode
              (RelayList.countries this)) as [country|] eqn:E.
  - destruct (find_by_key RelayCity.code cityCode
                (RelayCountry.cities country)) as [city|] eqn:E'.
    + rewrite (lookup_hostname_in this countryCode cityCode hostname E E').
      destruct (find_by_key Relay.name hostname (RelayCity.relays city))
        as [relay|] eqn:E''; [| discriminate].
      intros [= <-]. now exists country, city, relay.
    + rewrite (lookup_hostname_city_miss this countryCode cityCode hostname
                 E E').
      discriminate.
  - rewrite (lookup_hostname_miss this countryCode cityCode hostname E).
    discriminate.
Qed.

End LookupInversion.

Lemma find_by_key_Some_In (T : Type) (key : T -> string) wanted l x :
  find_by_key key wanted l = Some x -> In x l /\ key x = wanted.
Proof.
  intros E. apply find_by_key_Some in E.
  split; [exact (first_match_In E) | exact (first_match_key E)].
Qed.

(** X1.  A lookup only ever returns a node of the tree, of the level the
    location names, reached through owners that carry the queried codes: a
    country of the list with the country code; a city with the city code in
    such a country; a relay with the hostname in such a city. *)
Theorem findItemForLocation_sound (this : RelayList.RelayList)
    (location : model.LocationConstraint) (item : RelayItem) :
  RelayList.findItemForLocation this (model.Only location) = Some item ->
  resolves_under this location item.
Proof.
  destruct location as [cc | cc ci | cc ci h]; intros Hfound.
  - apply lookup_country_Some in Hfound as (country & -> & E).
    exact (find_by_key_Some_In _ _ _ E).
  - apply lookup_city_Some in Hfound as (country & city & -> & E & E').
    apply find_by_key_Some_In in E as [Hin Hcode].
    apply find_by_key_Some_In in E' as [Hin' Hcode'].
    exists country. now repeat split.
  - apply lookup_hostname_Some in Hfound
      as (country & city & relay & -> & E & E' & E'').
    apply find_by_key_Some_In in E as [Hin Hcode].
    apply find_by_key_Some_In in E' as [Hin' Hcode'].
    apply find_by_key_Some_In in E'' as [Hin'' Hname].
    exists country, city. unfold owns_relay. now repeat split.
Qed.

Lemma findItemForLocation_sound_witness :
  RelayList.findItemForLocation (RelayList.constructor Sample.nordic)
    (model.Only (model.City "no" "osl"))
  = Some (ItemCity (city_of Sample.norway
                      (model.RelayListCity.mk "Oslo" "osl"
                         [model.Relay.mk "no1-wg-001"])))
  /\
  resolves_under (RelayList.constructor Sample.nordic)
    (model.City "no" "osl")
    (ItemCity (city_of Sample.norway
                 (model.RelayListCity.mk "Oslo" "osl"
                    [model.Relay.mk "no1-wg-001"]))).
Proof.
  split.
  - reflexivity.
  - apply findItemForLocation_sound. reflexivity.
Defined.

(** ** Lookups in a constructed relay list, read on the model *)

Lemma find_constructed_country (m : model.RelayList.RelayList) countryCode :
  find_by_key RelayCountry.code countryCode
    (RelayList.countries (RelayList.constructor m))
  = option_map country_of
      (find_by_key model.RelayListCountry.code countryCode
         (model.RelayList.countries m)).
Proof.
  rewrite constructor_countries. now apply find_by_key_map.
Qed.

Lemma find_constructed_city source cityCode :
  find_by_key RelayCity.code cityCode (RelayCountry.cities (country_of source))
  = option_map (city_of source)
      (find_by_key model.RelayListCity.code cityCode
         (model.RelayListCountry.cities source)).
Proof. simpl. now apply find_by_key_map. Qed.

Lemma find_constructed_relay source source_city hostname :
  find_by_key Relay.name hostname
    (RelayCity.relays (city_of source source_city))
  = option_map (relay_of source source_city)
      (find_by_key model.Relay.hostname hostname
         (model.RelayListCity.relays source_city)).
Proof. simpl. now apply find_by_key_map. Qed.

(** X2.  In a constructed relay list a returned node stores exactly the
    queried location: the city found for [City(cc, ci)] has country code [cc]
    and code [ci], the relay found for [Hostname(cc, ci, h)] is the relay
    [(cc, ci, h)]; so looking the node up by what it stores returns it
    again, duplicate codes or not. *)
Theorem findItemForLocation_stores_query (m : model.RelayList.RelayList)
    (location : model.LocationConstraint) (item : RelayItem) :
  RelayList.findItemForLocation (RelayList.constructor m) (model.Only location)
  = Some item ->
  location_of_item item = location /\
  RelayList.findItemForLocation (RelayList.constructor m)
    (model.Only (location_of_item item)) = Some item.
Proof.
  intros Hfound.
  assert (Hloc : location_of_item item = location);
    [| split; [exact Hloc | now rewrite Hloc]].
  destruct location as [cc | cc ci | cc ci h].
  - apply lookup_country_Some in Hfound as (country & -> & E).
    apply find_by_key_Some_In in E as [_ Hcode]. simpl. now rewrite Hcode.
  - apply lookup_city_Some in Hfound as (country & city & -> & E & E').
    apply find_by_key_Some_In in E as [Hin Hcode].
    apply in_constructor_country in Hin as (source & _ & ->).
    apply find_by_key_Some_In in E' as [Hin' Hcode'].
    apply in_country_of_city in Hin' as (source_city & _ & ->).
    simpl in *. now rewrite Hcode, Hcode'.
  - apply lookup_hostname_Some in Hfound
      as (country & city & relay & -> & E & E' & E'').
    apply find_by_key_Some_In in E as [Hin Hcode].
    apply in_constructor_country in Hin as (source & _ & ->).
    apply find_by_key_Some_In in E' as [Hin' Hcode'].
    apply in_country_of_city in Hin' as (source_city & _ & ->).
    apply find_by_key_Some_In in E'' as [Hin'' Hname].
    apply in_city_of_relay in Hin'' as (source_relay & _ & ->).
    simpl in *. now rewrite Hcode, Hcode', Hname.
Qed.

Lemma findItemForLocation_stores_query_witness :
  RelayList.findItemForLocation (RelayList.constructor Sample.twice_sweden)
    (model.Only (model.City "se" "sto"))
  = Some (ItemCity (city_of Sample.sweden_no_relays Sample.empty_stockholm))
  /\
  location_of_item
    (ItemCity (city_of Sample.sweden_no_relays Sample.empty_stockholm))
  = model.City "se" "sto"
  /\
  RelayList.findItemForLocation (RelayList.constructor Sample.twice_sweden)
    (model.Only
       (location_of_item
          (ItemCity (city_of Sample.sweden_no_relays Sample.empty_stockholm))))
  = Some (ItemCity (city_of Sample.sweden_no_relays Sample.empty_stockholm)).
Proof.
  split; [reflexivity |].
  apply (findItemForLocation_stores_query Sample.twice_sweden
           (model.City "se" "sto")).
  reflexivity.
Defined.

(** X3.  With codes unique within their sibling lists, every node of a
    constructed relay list, country, city or relay, is what the lookup of
    the location it stores returns. *)
Theorem round_trip_every_level (m : model.RelayList.RelayList)
    (item : RelayItem) :
  unique_codes m ->
  item_in_tree (RelayList.constructor m) item ->
  RelayList.findItemForLocation (RelayList.constructor m)
    (model.Only (location_of_item item)) = Some item.
Proof.
  intros [Hcountries Hcities] Hin.
  assert (Hfind_country : forall source,
             In source (model.RelayList.countries m) ->
             find_by_key RelayCountry.code (model.RelayListCountry.code source)
               (RelayList.countries (RelayList.constructor m))
             = Some (country_of source)).
  { intros source Hsource. rewrite constructor_countries.
    apply (find_by_key_NoDup RelayCountry.code
             (map country_of (model.RelayList.countries m))
             (country_of source)).
    - rewrite country_of_codes. exact Hcountries.
    - now apply in_map. }
  assert (Hfind_city : forall source source_city,
             In source (model.RelayList.countries m) ->
             In source_city (model.RelayListCountry.cities source) ->
             find_by_key RelayCity.code (model.RelayListCity.code source_city)
               (RelayCountry.cities (country_of source))
             = Some (city_of source source_city)).
  { intros source source_city Hsource Hcity.
    apply (find_by_key_NoDup RelayCity.code
             (RelayCountry.cities (country_of source))
             (city_of source source_city)).
    - simpl. rewrite city_of_codes. now apply Hcities.
    - apply in_country_of_city. now exists source_city. }
  destruct item as [country | city | relay]; simpl in Hin.
  - apply in_constructor_country in Hin as (source & Hsource & ->).
    change (location_of_item (ItemCountry (country_of source)))
      with (model.Country (model.RelayListCountry.code source)).
    rewrite lookup_country_eq.
    now rewrite (Hfind_country source Hsource).
  - destruct Hin as (country & Hcountry & Hcity).
    apply in_constructor_country in Hcountry as (source & Hsource & ->).
    apply in_country_of_city in Hcity as (source_city & Hsource_city & ->).
    change (location_of_item (ItemCity (city_of source source_city)))
      with (model.City (model.RelayListCountry.code source)
              (model.RelayListCity.code source_city)).
    rewrite (lookup_city_in _ _ (model.RelayListCity.code source_city)
               (Hfind_country source Hsource)).
    now rewrite (Hfind_city source source_city Hsource Hsource_city).
  - destruct Hin as (country & city & Hcountry & Hcity & Hrelay).
    apply in_constructor_country in Hcountry as (source & Hsource & ->).
    apply in_country_of_city in Hcity as (source_city & Hsource_city & ->).
    apply in_city_of_relay in Hrelay as (source_relay & Hsource_relay & ->).
    apply lookup_own_path; auto.
Qed.

Lemma round_trip_every_level_witness :
  unique_codes Sample.nordic
  /\
  item_in_tree (RelayList.constructor Sample.nordic)
    (ItemCity (city_of Sample.sweden Sample.gothenburg))
  /\
  RelayList.findItemForLocation (RelayList.constructor Sample.nordic)
    (model.Only (model.City "se" "got"))
  = Some (ItemCity (city_of Sample.sweden Sample.gothenburg)).
Proof.
  assert (Hunique : unique_codes Sample.nordic).
  { split.
    - simpl. repeat constructor; simpl; intuition discriminate.
    - intros country [<- | [<- | []]]; simpl;
        repeat constructor; simpl; intuition discriminate. }
  assert (Hin : item_in_tree (RelayList.constructor Sample.nordic)
                  (ItemCity (city_of Sample.sweden Sample.gothenburg))).
  { exists (country_of Sample.sweden). split; simpl.
    - now left.
    - right. now left. }
  split; [exact Hunique | split; [exact Hin |]].
  exact (round_trip_every_level
           (ItemCity (city_of Sample.sweden Sample.gothenburg)) Hunique Hin).
Defined.

Lemma returns_node_option_map (A : Type) (f : A -> RelayItem) (o : option A) :
  returns_node (option_map f o) <-> exists x, o = Some x.
Proof.
  unfold returns_node. destruct o as [a|]; simpl; split.
  - intros _. now exists a.
  - intros _. now exists (f a).
  - intros [item H]. discriminate.
  - intros [x H]. discriminate.
Qed.

Lemma first_match_unique (T : Type) (key : T -> string) wanted l x y :
  first_match key wanted l x -> first_match key wanted l y -> x = y.
Proof.
  intros Hx Hy. apply find_by_key_Some in Hx, Hy. congruence.
Qed.

(** X4.  Whether a lookup in a constructed relay list succeeds can be read
    off the input model: a country lookup succeeds exactly when the code is
    listed; a city lookup exactly when the first country with the code lists
    the city code; a hostname lookup exactly when the first city with the
    city code in the first country with the country code lists the
    hostname. *)
Theorem findItemForLocation_decides_model (m : model.RelayList.RelayList)
    (location : model.LocationConstraint) :
  returns_node
    (RelayList.findItemForLocation (RelayList.constructor m)
       (model.Only location))
  <-> model_resolves m location.
Proof.
  destruct location as [cc | cc ci | cc ci h]; simpl model_resolves.
  - rewrite lookup_country_eq, find_constructed_country.
    rewrite !returns_node_option_map.
    rewrite <- find_by_key_found_iff.
    split.
    + intros [x H].
      destruct (find_by_key model.RelayListCountry.code cc
                  (model.RelayList.countries m)) as [source|];
        [now exists source | discriminate].
    + intros [source H]. rewrite H. now exists (country_of source).
  - pose proof (find_constructed_country m cc) as Htree.
    destruct (find_by_key model.RelayListCountry.code cc
                (model.RelayList.countries m)) as [source|] eqn:E;
      cbn [option_map] in Htree.
    + rewrite (lookup_city_in (RelayList.constructor m) cc ci Htree).
      rewrite find_constructed_city.
      rewrite !returns_node_option_map.
      apply find_by_key_Some in E.
      split.
      * intros [x H]. exists source. split; [exact E |].
        apply find_by_key_found_iff.
        destruct (find_by_key model.RelayListCity.code ci
                    (model.RelayListCountry.cities source)) as [sc|];
          [now exists sc | discriminate].
      * intros (country & Hfirst & Hin).
        rewrite (first_match_unique Hfirst E) in Hin.
        apply find_by_key_found_iff in Hin as [sc Hsc].
        rewrite Hsc. now exists (city_of source sc).
    + rewrite (lookup_city_miss (RelayList.constructor m) cc ci Htree). split.
      * intros [item H]. discriminate.
      * intros (country & Hfirst & _).
        apply find_by_key_Some in Hfirst. congruence.
  - pose proof (find_constructed_country m cc) as Htree.
    destruct (find_by_key model.RelayListCountry.code cc
                (model.RelayList.countries m)) as [source|] eqn:E;
      cbn [option_map] in Htree.
    + pose proof (find_constructed_city source ci) as Htree'.
      apply find_by_key_Some in E.
      destruct (find_by_key model.RelayListCity.code ci
                  (model.RelayListCountry.cities source)) as [sc|] eqn:E';
        cbn [option_map] in Htree'.
      * rewrite (lookup_hostname_in (RelayList.constructor m) cc ci h
                   Htree Htree').
        rewrite find_constructed_relay, !returns_node_option_map.
        apply find_by_key_Some in E'.
        split.
        -- intros [x H]. exists source, sc.
           split; [exact E | split; [exact E' |]].
           apply find_by_key_found_iff.
           destruct (find_by_key model.Relay.hostname h
                       (model.RelayListCity.relays sc)) as [sr|];
             [now exists sr | discriminate].
        -- intros (country & city & Hfirst & Hfirst' & Hin).
           rewrite (first_match_unique Hfirst E) in Hfirst'.
           rewrite (first_match_unique Hfirst' E') in Hin.
           apply find_by_key_found_iff in Hin as [sr Hsr].
           rewrite Hsr. now exists (relay_of source sc sr).
      * rewrite (lookup_hostname_city_miss (RelayList.constructor m) cc ci h
                   Htree Htree').
        split.
        -- intros [item H]. discriminate.
        -- intros (country & city & Hfirst & Hfirst' & _).
           rewrite (first_match_unique Hfirst E) in Hfirst'.
           apply find_by_key_Some in Hfirst'. congruence.
    + rewrite (lookup_hostname_miss (RelayList.constructor m) cc ci h Htree).
      split.
      * intros [item H]. discriminate.
      * intros (country & city & Hfirst & _).
        apply find_by_key_Some in Hfirst. congruence.
Qed.

(** X5.  The branches nest: the [City] lookup is the [Country] lookup
    followed by a scan of the found country's cities, and the [Hostname]
    lookup is the [City] lookup followed by a scan of the found city's
    relays. *)
Theorem findItemForLocation_through_shallower (this : RelayList.RelayList)
    (countryCode cityCode hostname : string) :
  RelayList.findItemForLocation this
    (model.Only (model.City countryCode cityCode))
  = match RelayList.findItemForLocation this
            (model.Only (model.Country countryCode)) with
    | Some (ItemCountry country) =>
        option_map ItemCity
          (find_by_key RelayCity.code cityCode (RelayCountry.cities country))
    | _ => None
    end
  /\
  RelayList.findItemForLocation this
    (model.Only (model.Hostname countryCode cityCode hostname))
  = match RelayList.findItemForLocation this
            (model.Only (model.City countryCode cityCode)) with
    | Some (ItemCity city) =>
        option_map ItemRelay
          (find_by_key Relay.name hostname (RelayCity.relays city))
    | _ => None
    end.
Proof.
  rewrite lookup_country_eq.
  destruct (find_by_key RelayCountry.code countryCode
              (RelayList.countries this)) as [country|] eqn:E.
  - rewrite (lookup_city_in this countryCode cityCode E).
    cbn [option_map]. split; [reflexivity |].
    destruct (find_by_key RelayCity.code cityCode
                (RelayCountry.cities country)) as [city|] eqn:E'.
    + now rewrite (lookup_hostname_in this countryCode cityCode hostname
                     E E').
    + now rewrite (lookup_hostname_city_miss this countryCode cityCode
                     hostname E E').
  - rewrite (lookup_city_miss this countryCode cityCode E).
    rewrite (lookup_hostname_miss this countryCode cityCode hostname E).
    now split.
Qed.

(** ** Which countries a lookup depends on *)

Lemma constructor_extended (m : model.RelayList.RelayList) extra :
  RelayList.countries (RelayList.constructor (extended m extra))
  = RelayList.countries (RelayList.constructor m) ++ map country_of extra.
Proof.
  rewrite !constructor_countries. unfold extended. simpl. apply map_app.
Qed.

(** A lookup is decided by the scan for its country code. *)
Lemma lookup_same_country (this other : RelayList.RelayList)
    (location : model.LocationConstraint) :
  find_by_key RelayCountry.code (location_countryCode location)
    (RelayList.countries other)
  = find_by_key RelayCountry.code (location_countryCode location)
      (RelayList.countries this) ->
  RelayList.findItemForLocation other (model.Only location)
  = RelayList.findItemForLocation this (model.Only location).
Proof.
  destruct location as [cc | cc ci | cc ci h]; simpl location_countryCode;
    intros Hsame.
  - rewrite !lookup_country_eq. now rewrite Hsame.
  - destruct (find_by_key RelayCountry.code cc (RelayList.countries this))
      as [country|] eqn:E.
    + rewrite (lookup_city_in this cc ci E).
      now rewrite (lookup_city_in other cc ci Hsame).
    + rewrite (lookup_city_miss this cc ci E).
      now rewrite (lookup_city_miss other cc ci Hsame).
  - destruct (find_by_key RelayCountry.code cc (RelayList.countries this))
      as [country|] eqn:E.
    + destruct (find_by_key RelayCity.code ci (RelayCountry.cities country))
        as [city|] eqn:E'.
      * rewrite (lookup_hostname_in this cc ci h E E').
        now rewrite (lookup_hostname_in other cc ci h Hsame E').
      * rewrite (lookup_hostname_city_miss this cc ci h E E').
        now rewrite (lookup_hostname_city_miss other cc ci h Hsame E').
    + rewrite (lookup_hostname_miss this cc ci h E).
      now rewrite (lookup_hostname_miss other cc ci h Hsame).
Qed.

Lemma lookup_finds_country (this : RelayList.RelayList)
    (location : model.LocationConstraint) (item : RelayItem) :
  RelayList.findItemForLocation this (model.Only location) = Some item ->
  exists country,
    find_by_key RelayCountry.code (location_countryCode location)
      (RelayList.countries this) = Some country.
Proof.
  destruct location as [cc | cc ci | cc ci h]; intros Hfound.
  - apply lookup_country_Some in Hfound as (country & _ & E).
    now exists country.
  - apply lookup_city_Some in Hfound as (country & _ & _ & E & _).
    now exists country.
  - apply lookup_hostname_Some in Hfound as (country & _ & _ & _ & E & _).
    now exists country.
Qed.

(** X6.  Listing further countries after those of a model changes no lookup
    that already returned a node: the relay list built from the longer model
    returns the same node. *)
Theorem findItemForLocation_extended (m : model.RelayList.RelayList)
    (extra : list model.RelayListCountry.RelayListCountry)
    (constraint : model.Constraint model.LocationConstraint)
    (item : RelayItem) :
  RelayList.findItemForLocation (RelayList.constructor m) constraint
  = Some item ->
  RelayList.findItemForLocation (RelayList.constructor (extended m extra))
    constraint = Some item.
Proof.
  destruct constraint as [| location]; [discriminate |].
  intros Hfound. rewrite <- Hfound.
  apply lookup_same_country.
  apply lookup_finds_country in Hfound as [country E].
  rewrite E, constructor_extended.
  now apply find_by_key_app.
Qed.

Lemma findItemForLocation_extended_witness :
  RelayList.findItemForLocation
    (RelayList.constructor (model.RelayList.mk [Sample.sweden_no_relays]))
    (model.Only (model.City "se" "sto"))
  = Some (ItemCity (city_of Sample.sweden_no_relays Sample.empty_stockholm))
  /\
  RelayList.findItemForLocation
    (RelayList.constructor
       (extended (model.RelayList.mk [Sample.sweden_no_relays])
          [Sample.sweden; Sample.norway]))
    (model.Only (model.City "se" "sto"))
  = Some (ItemCity (city_of Sample.sweden_no_relays Sample.empty_stockholm)).
Proof.
  split; [reflexivity |].
  apply (findItemForLocation_extended
           (model.RelayList.mk [Sample.sweden_no_relays])
           [Sample.sweden; Sample.norway]
           (model.Only (model.City "se" "sto"))).
  reflexivity.
Defined.

(** X7.  A lookup depends only on the countries that carry the queried
    country code: dropping every other country from the list leaves the
    result of the lookup unchanged. *)
Theorem findItemForLocation_only_code (this : RelayList.RelayList)
    (location : model.LocationConstraint) :
  RelayList.findItemForLocation
    (only_code (location_countryCode location) this) (model.Only location)
  = RelayList.findItemForLocation this (model.Only location).
Proof.
  apply lookup_same_country. unfold only_code. simpl RelayList.countries.
  apply find_by_key_filter.
Qed.

(** X8.  When no country of the list carries the country code of a
    location, the lookup of that location is absent at every level,
    whatever city code or hostname it names; in particular every lookup in
    an empty relay list is absent. *)
Theorem findItemForLocation_unknown_country (this : RelayList.RelayList)
    (location : model.LocationConstraint) :
  ~ In (location_countryCode location)
       (map RelayCountry.code (RelayList.countries this)) ->
  RelayList.findItemForLocation this (model.Only location) = None.
Proof.
  intros Hunknown.
  destruct (RelayList.findItemForLocation this (model.Only location))
    as [item|] eqn:Hfound; [| reflexivity].
  exfalso. apply Hunknown.
  apply lookup_finds_country in Hfound as [country E].
  apply find_by_key_found_iff. now exists country.
Qed.

Lemma findItemForLocation_unknown_country_witness :
  ~ In (location_countryCode (model.Hostname "dk" "sto" "se1-wg-001"))
       (map RelayCountry.code
          (RelayList.countries (RelayList.constructor Sample.nordic)))
  /\
  RelayList.findItemForLocation (RelayList.constructor Sample.nordic)
    (model.Only (model.Hostname "dk" "sto" "se1-wg-001")) = None.
Proof.
  assert (Hunknown :
            ~ In (location_countryCode (model.Hostname "dk" "sto" "se1-wg-001"))
                 (map RelayCountry.code
                    (RelayList.countries
                       (RelayList.constructor Sample.nordic)))).
  { simpl. intuition discriminate. }
  split; [exact Hunknown |].
  exact (findItemForLocation_unknown_country
           (RelayList.constructor Sample.nordic)
           (model.Hostname "dk" "sto" "se1-wg-001") Hunknown).
Defined.

(** ** The welcome view model: what its member functions launch *)

Section WelcomeViewModelFacts.

Variable WebsiteAuthToken : Type.
Variable Duration : Type.
Variable ACCOUNT_EXPIRY_POLL_INTERVAL : Duration.

(** X9.  Closing the purchase-result dialog, with success or without,
    fetches the account data exactly once and resets the purchase result
    exactly once; the reset is the only call of the coroutine launched
    last. *)
Theorem onClosePurchaseResultDialog_refreshes_and_resets (success : bool) :
  WelcomeViewModel.calls WelcomeViewModel.is_getAccountData
    (WelcomeViewModel.onClosePurchaseResultDialog WebsiteAuthToken Duration
       success) = 1
  /\
  WelcomeViewModel.calls WelcomeViewModel.is_resetPurchaseResult
    (WelcomeViewModel.onClosePurchaseResultDialog WebsiteAuthToken Duration
       success) = 1
  /\
  last
    (WelcomeViewModel.onClosePurchaseResultDialog WebsiteAuthToken Duration
       success) []
  = [WelcomeViewModel.paymentUseCase_resetPurchaseResult].
Proof. destruct success; repeat split. Qed.


(** X11.  A click on the site-payment button launches one coroutine, which
    first asks for a website auth token; it sends the side effect
    [OpenAccountView(token)] when a token is answered, and sends nothing
    when the answer is null.  No other side effect is ever sent. *)
Theorem onSitePaymentClick_sends
    (websiteAuthToken : option WebsiteAuthToken) :
  (exists rest,
      WelcomeViewModel.onSitePaymentClick WebsiteAuthToken Duration
        websiteAuthToken
      = [WelcomeViewModel.accountRepository_getWebsiteAuthToken :: rest])
  /\
  WelcomeViewModel.calls WelcomeViewModel.is_send
    (WelcomeViewModel.onSitePaymentClick WebsiteAuthToken Duration
       websiteAuthToken)
  = match websiteAuthToken with Some _ => 1 | None => 0 end
  /\
  forall effect,
    In (WelcomeViewModel.uiSideEffect_send effect)
       (List.concat
          (WelcomeViewModel.onSitePaymentClick WebsiteAuthToken Duration
             websiteAuthToken))
    <->
    exists token,
      websiteAuthToken = Some token /\
      effect = WelcomeViewModel.OpenAccountView token.
Proof.
  destruct websiteAuthToken as [token|]; (split; [| split]).
  - now eexists.
  - reflexivity.
  - intros effect. simpl. split.
    + intros [H | [H | []]]; [discriminate |].
      injection H as <-. now exists token.
    + intros (token' & [= <-] & ->). right. now left.
  - now eexists.
  - reflexivity.
  - intros effect. simpl. split.
    + intros [H | []]. discriminate.
    + intros (token' & H & _). discriminate.
Qed.

(** The calls of one kind among the first [n] iterations of the polling
    loop. *)
Lemma pollLoop_count (which : WelcomeViewModel.Call WebsiteAuthToken Duration
                              -> bool) (n : nat) :
  which (WelcomeViewModel.delay ACCOUNT_EXPIRY_POLL_INTERVAL) = false ->
  List.length
    (filter which
       (fst (WelcomeViewModel.pollLoop WebsiteAuthToken Duration
               ACCOUNT_EXPIRY_POLL_INTERVAL true n)))
  = if which WelcomeViewModel.accountRepository_getAccountData then n else 0.
Proof.
  intros Hdelay. induction n as [|n IH].
  - now destruct (which WelcomeViewModel.accountRepository_getAccountData).
  - simpl in *.
    destruct (WelcomeViewModel.pollLoop WebsiteAuthToken Duration
                ACCOUNT_EXPIRY_POLL_INTERVAL true n) as [calls left].
    simpl in *. rewrite Hdelay.
    destruct (which WelcomeViewModel.accountRepository_getAccountData);
      simpl; now rewrite IH.
Qed.


End WelcomeViewModelFacts.
